(** * VisualiEducate: the selection / generation / history lifecycle of [App]

    A shallow embedding of the React component [App] (the component file and
    [types.ts]).  The component keeps eight [useState] cells; every event
    handler is a function on the record of those cells.  [handleVisualize] is
    an [async] function: its synchronous prefix runs up to the [await], the
    call to [generateVisualFromContext] stays in flight, and the continuation
    runs when the promise settles, with the [selectedText] it closed over.
    In-flight calls are therefore part of the modelled world. *)

From Stdlib Require Import List NArith ZArith QArith Bool String Ascii Lia.
From Stdlib Require Import Permutation.
Import ListNotations.
Local Close Scope Q_scope.
Local Open Scope list_scope.

(** ** JavaScript strings

    A JS string is a sequence of UTF-16 code units; [length] counts code
    units and [===] compares them one by one. *)

Module Js.

Definition str := list N.

(** A Latin-1 literal of the source, as code units. *)
Definition lit (s : string) : str :=
  List.map N_of_ascii (list_ascii_of_string s).

(** [a === b] on strings. *)
Fixpoint eqb (a b : str) : bool :=
  match a, b with
  | [], [] => true
  | c :: a', d :: b' => N.eqb c d && eqb a' b'
  | _, _ => false
  end.

(** ToBoolean on a string: only the empty string is falsy. *)
Definition truthy (s : str) : bool :=
  match s with
  | [] => false
  | _ :: _ => true
  end.

(** ECMAScript WhiteSpace and LineTerminator code points, the set that
    [String.prototype.trim] strips. *)
Definition isWhiteSpace (c : N) : bool :=
  ((9 <=? c) && (c <=? 13)          (* TAB LF VT FF CR *)
   || (c =? 32)                     (* SP *)
   || (c =? 160)                    (* NBSP *)
   || (c =? 5760)                   (* U+1680 *)
   || ((8192 <=? c) && (c <=? 8202))  (* U+2000 .. U+200A *)
   || (c =? 8232) || (c =? 8233)    (* LS PS *)
   || (c =? 8239)                   (* U+202F *)
   || (c =? 8287)                   (* U+205F *)
   || (c =? 12288)                  (* U+3000 *)
   || (c =? 65279))%N.              (* U+FEFF *)

Fixpoint trimStart (s : str) : str :=
  match s with
  | [] => []
  | c :: s' => if isWhiteSpace c then trimStart s' else s
  end.

Definition trimEnd (s : str) : str := rev (trimStart (rev s)).

Definition trim (s : str) : str := trimEnd (trimStart s).

(** [s.substr(start, len)] for non-negative arguments. *)
Definition substr (start len : nat) (s : str) : str :=
  firstn len (skipn start s).

End Js.

(** ** types.ts *)

Record VisualResult := {
  id : Js.str;
  text : Js.str;
  imageUrl : Js.str;
  timestamp : Z;
  explanation : option Js.str
}.

Inductive GenerationStatus := IDLE | LOADING | SUCCESS | ERROR.

(** ** Host objects read by the handlers *)

Module File.
Record t := { name : Js.str; type : Js.str }.
End File.

Module DOMRect.
Record t := { left : Q; top : Q; width : Q }.
End DOMRect.

(** What [window.getSelection()] returns when it is not [null]: the selected
    text and the bounding rectangle of its first range.  Coordinates are
    doubles in the browser; they are rationals here and no statement below
    depends on their value. *)
Module Selection.
Record t := { toString : Js.str; getBoundingClientRect : DOMRect.t }.
End Selection.

Module Position.
Record t := { x : Q; y : Q }.
End Position.

(** ** The component state: one field per [useState] cell of [App] *)

Record AppState := {
  file : option File.t;
  pdfUrl : option Js.str;
  selectedText : Js.str;
  selectionPosition : option Position.t;
  results : list VisualResult;
  status : GenerationStatus;
  error : option Js.str;
  showHistory : bool
}.

Definition initialState : AppState := {|
  file := None;
  pdfUrl := None;
  selectedText := [];
  selectionPosition := None;
  results := [];
  status := IDLE;
  error := None;
  showHistory := false
|}.

(** The state setters.  [setResults] takes the updater form
    [prev => ...]; the value form [setResults(v)] is [setResults (fun _ => v)]. *)

Definition setFile (v : option File.t) (s : AppState) : AppState :=
  {| file := v; pdfUrl := pdfUrl s; selectedText := selectedText s;
     selectionPosition := selectionPosition s; results := results s;
     status := status s; error := error s; showHistory := showHistory s |}.

Definition setPdfUrl (v : option Js.str) (s : AppState) : AppState :=
  {| file := file s; pdfUrl := v; selectedText := selectedText s;
     selectionPosition := selectionPosition s; results := results s;
     status := status s; error := error s; showHistory := showHistory s |}.

Definition setSelectedText (v : Js.str) (s : AppState) : AppState :=
  {| file := file s; pdfUrl := pdfUrl s; selectedText := v;
     selectionPosition := selectionPosition s; results := results s;
     status := status s; error := error s; showHistory := showHistory s |}.

Definition setSelectionPosition (v : option Position.t) (s : AppState) : AppState :=
  {| file := file s; pdfUrl := pdfUrl s; selectedText := selectedText s;
     selectionPosition := v; results := results s;
     status := status s; error := error s; showHistory := showHistory s |}.

Definition setResults (f : list VisualResult -> list VisualResult) (s : AppState)
  : AppState :=
  {| file := file s; pdfUrl := pdfUrl s; selectedText := selectedText s;
     selectionPosition := selectionPosition s; results := f (results s);
     status := status s; error := error s; showHistory := showHistory s |}.

Definition setStatus (v : GenerationStatus) (s : AppState) : AppState :=
  {| file := file s; pdfUrl := pdfUrl s; selectedText := selectedText s;
     selectionPosition := selectionPosition s; results := results s;
     status := v; error := error s; showHistory := showHistory s |}.

Definition setError (v : option Js.str) (s : AppState) : AppState :=
  {| file := file s; pdfUrl := pdfUrl s; selectedText := selectedText s;
     selectionPosition := selectionPosition s; results := results s;
     status := status s; error := v; showHistory := showHistory s |}.

Definition setShowHistory (v : bool) (s : AppState) : AppState :=
  {| file := file s; pdfUrl := pdfUrl s; selectedText := selectedText s;
     selectionPosition := selectionPosition s; results := results s;
     status := status s; error := error s; showHistory := v |}.

(** ** Synchronous handlers *)

(** [handleFileChange]: [picked] is [e.target.files?.[0]], [url] the value
    [URL.createObjectURL] gives for it. *)
Definition handleFileChange (picked : option File.t) (url : Js.str)
    (s : AppState) : AppState :=
  match picked with
  | Some selectedFile =>
      if Js.eqb (File.type selectedFile) (Js.lit "application/pdf")
      then setError None (setPdfUrl (Some url) (setFile (Some selectedFile) s))
      else setError (Some (Js.lit "Please select a valid PDF file.")) s
  | None => s
  end.

(** [handleMouseUp]: [selection] is [window.getSelection()].  With a null
    selection [text] is [undefined] and the else branch runs.  With a
    selection, [range] and [rect] are defined, so the guard [if (rect)]
    holds whenever the then branch is entered. *)
Definition handleMouseUp (selection : option Selection.t) (s : AppState)
  : AppState :=
  match selection with
  | Some sel =>
      let text := Js.trim (Selection.toString sel) in
      if Js.truthy text && (5 <? List.length text)
      then
        let rect := Selection.getBoundingClientRect sel in
        setSelectionPosition
          (Some {| Position.x := (DOMRect.left rect + DOMRect.width rect / 2)%Q;
                   Position.y := (DOMRect.top rect - 10)%Q |})
          (setSelectedText text s)
      else setSelectionPosition None (setSelectedText [] s)
  | None => setSelectionPosition None (setSelectedText [] s)
  end.

Definition clearCurrentSelection (s : AppState) : AppState :=
  setSelectionPosition None (setSelectedText [] s).

(** The inline handlers of the markup. *)

(** Header dismiss button:
    [() => {setFile(null); setPdfUrl(null); setResults([]);}]. *)
Definition removeFile (s : AppState) : AppState :=
  setResults (fun _ => []) (setPdfUrl None (setFile None s)).

Definition toggleHistory (s : AppState) : AppState :=
  setShowHistory (negb (showHistory s)) s.

(** [VisualCard]'s [onClose], rendered for [results[0]]:
    [prev => prev.filter(r => r.id !== results[0].id)]. *)
Definition closeUpdater (head : VisualResult) (prev : list VisualResult)
  : list VisualResult :=
  filter (fun r => negb (Js.eqb (id r) (id head))) prev.

Definition closeCard (s : AppState) : AppState :=
  match results s with
  | head :: _ => setResults (closeUpdater head) s
  | [] => s
  end.

(** A history drawer entry's [onClick], rendered for [res]:
    [prev => [res, ...prev.filter(p => p.id !== res.id)]], then
    [setShowHistory(false)]. *)
Definition promoteUpdater (res : VisualResult) (prev : list VisualResult)
  : list VisualResult :=
  res :: filter (fun p => negb (Js.eqb (id p) (id res))) prev.

Definition historyEntryClick (res : VisualResult) (s : AppState) : AppState :=
  setShowHistory false (setResults (promoteUpdater res) s).

(** The drawer lists [results.slice(1)]. *)
Definition drawerEntries (s : AppState) : list VisualResult :=
  skipn 1 (results s).

(** Error toast dismiss button: [() => setError(null)]. *)
Definition dismissError (s : AppState) : AppState := setError None s.

(** ** The asynchronous part: [handleVisualize]

    The world is the component state together with the calls to
    [generateVisualFromContext]: [calls] logs the argument of every
    invocation, oldest first; [pending] holds, for every invocation whose
    promise has not settled, the [selectedText] its continuation closed
    over. *)

Record World := {
  app : AppState;
  calls : list Js.str;
  pending : list Js.str
}.

Definition initialWorld : World :=
  {| app := initialState; calls := []; pending := [] |}.

Definition onApp (f : AppState -> AppState) (w : World) : World :=
  {| app := f (app w); calls := calls w; pending := pending w |}.

(** [handleVisualize] up to its [await]: the guard, the three setters, and
    the call itself. *)
Definition handleVisualize (w : World) : World :=
  let s := app w in
  if negb (Js.truthy (selectedText s)) then w
  else
    {| app := setSelectionPosition None (setError None (setStatus LOADING s));
       calls := calls w ++ [selectedText s];
       pending := pending w ++ [selectedText s] |}.

(** What the service answers when its promise fulfils. *)
Record Generated := {
  gen_imageUrl : Js.str;
  gen_explanation : option Js.str
}.

(** The [try] body after the [await].  [captured] is the [selectedText] of
    the closure, [rnd36] the value of [Math.random().toString(36)] and [now]
    the value of [Date.now()]. *)
Definition newResult (captured : Js.str) (g : Generated) (rnd36 : Js.str)
    (now : Z) : VisualResult :=
  {| id := Js.substr 2 9 rnd36;
     text := captured;
     imageUrl := gen_imageUrl g;
     explanation := gen_explanation g;
     timestamp := now |}.

Definition onFulfilled (captured : Js.str) (g : Generated) (rnd36 : Js.str)
    (now : Z) (s : AppState) : AppState :=
  setStatus SUCCESS
    (setResults (fun prev => newResult captured g rnd36 now :: prev) s).

(** The [catch] block. *)
Definition onRejected (s : AppState) : AppState :=
  setStatus ERROR
    (setError
       (Some (Js.lit "Failed to generate visualization. Please try again.")) s).

Definition removeAt {A} (k : nat) (l : list A) : list A :=
  firstn k l ++ skipn (S k) l.

(** Settling the [k]-th pending call. *)
Definition settle (k : nat) (f : Js.str -> AppState -> AppState) (w : World)
  : option World :=
  match nth_error (pending w) k with
  | Some captured =>
      Some {| app := f captured (app w);
              calls := calls w;
              pending := removeAt k (pending w) |}
  | None => None
  end.

(** ** Events

    One constructor per way the environment can drive the component.  An
    event is dispatched to the handler the current render attached; when the
    render has no such control (or no such pending promise) the event cannot
    occur and [dispatch] is [None]. *)

Inductive Event :=
| FileChange (picked : option File.t) (url : Js.str)
| MouseUp (selection : option Selection.t)
| ClickVisualize
| Fulfil (k : nat) (g : Generated) (rnd36 : Js.str) (now : Z)
| Reject (k : nat)
| ClickRemoveFile
| ClickToggleHistory
| ClickCloseHistory
| ClickCardClose
| ClickHistoryEntry (n : nat)
| ClickDismissError.

Definition isSome {A} (o : option A) : bool :=
  match o with Some _ => true | None => false end.

Definition whenb (b : bool) (w : World) : option World :=
  if b then Some w else None.

Definition dispatch (w : World) (e : Event) : option World :=
  let s := app w in
  match e with
  | FileChange picked url =>
      (* both file inputs sit under [!file] *)
      whenb (negb (isSome (file s))) (onApp (handleFileChange picked url) w)
  | MouseUp selection =>
      (* the viewer [div] is the [file] branch *)
      whenb (isSome (file s)) (onApp (handleMouseUp selection) w)
  | ClickVisualize =>
      (* [{selectionPosition && (...)}] inside the viewer *)
      whenb (isSome (file s) && isSome (selectionPosition s))
            (handleVisualize w)
  | Fulfil k g rnd36 now =>
      settle k (fun captured => onFulfilled captured g rnd36 now) w
  | Reject k =>
      settle k (fun _ => onRejected) w
  | ClickRemoveFile =>
      whenb (isSome (file s)) (onApp removeFile w)
  | ClickToggleHistory =>
      Some (onApp toggleHistory w)
  | ClickCloseHistory =>
      whenb (showHistory s) (onApp (setShowHistory false) w)
  | ClickCardClose =>
      (* [results.length > 0 ? <VisualCard .../> : ...] *)
      whenb (negb (Nat.eqb (List.length (results s)) 0)) (onApp closeCard w)
  | ClickHistoryEntry n =>
      if showHistory s then
        match nth_error (drawerEntries s) n with
        | Some res => Some (onApp (historyEntryClick res) w)
        | None => None
        end
      else None
  | ClickDismissError =>
      whenb (isSome (error s)) (onApp dismissError w)
  end.

Fixpoint run (w : World) (tr : list Event) : option World :=
  match tr with
  | [] => Some w
  | e :: tr' =>
      match dispatch w e with
      | Some w' => run w' tr'
      | None => None
      end
  end.

Definition reachable (w : World) : Prop :=
  exists tr, run initialWorld tr = Some w.

(** ** Promotion by id

    [promote i] is a click on the drawer entry whose key is [i]: the drawer
    renders one entry per element of [results.slice(1)], so for an id that no
    drawer entry carries there is nothing to click and the history stays as
    it is. *)

Definition promote (i : Js.str) (h : list VisualResult) : list VisualResult :=
  match find (fun r => Js.eqb (id r) i) (skipn 1 h) with
  | Some res => promoteUpdater res h
  | None => h
  end.

Definition promoteApp (i : Js.str) (s : AppState) : AppState :=
  match find (fun r => Js.eqb (id r) i) (drawerEntries s) with
  | Some res => historyEntryClick res s
  | None => s
  end.

Definition ids (h : list VisualResult) : list Js.str := List.map id h.

(** Filtering by id: what [prev.filter(p => p.id !== i)] keeps. *)

Definition without (i : Js.str) (h : list VisualResult) : list VisualResult :=
  filter (fun p => negb (Js.eqb (id p) i)) h.

(** Every fulfilled generation of a trace brings an id that the history
    does not hold at that moment. *)
Fixpoint freshIds (w : World) (tr : list Event) : Prop :=
  match tr with
  | [] => True
  | e :: tr' =>
      match e with
      | Fulfil _ _ rnd36 _ => ~ In (Js.substr 2 9 rnd36) (ids (results (app w)))
      | _ => True
      end /\
      match dispatch w e with
      | Some w' => freshIds w' tr'
      | None => True
      end
  end.

(** ** Scenarios

    Concrete inputs used by the examples below: the end-to-end scenarios of
    the specification, driven through [dispatch]. *)

Definition pdf : File.t :=
  {| File.name := Js.lit "paper.pdf"; File.type := Js.lit "application/pdf" |}.

Definition blobUrl : Js.str := Js.lit "blob:paper".

Definition rect0 : DOMRect.t :=
  {| DOMRect.left := 100%Q; DOMRect.top := 200%Q; DOMRect.width := 80%Q |}.

Definition quantum : Js.str := Js.lit "quantum entanglement is weird".

Definition selQuantum : Selection.t :=
  {| Selection.toString := Js.lit "  quantum entanglement is weird ";
     Selection.getBoundingClientRect := rect0 |}.

Definition selDuality : Selection.t :=
  {| Selection.toString := Js.lit "Wave-Particle Duality";
     Selection.getBoundingClientRect := rect0 |}.

Definition selWave : Selection.t :=
  {| Selection.toString := Js.lit " wave ";
     Selection.getBoundingClientRect := rect0 |}.

Definition gen0 : Generated :=
  {| gen_imageUrl := Js.lit "http://x/img.png";
     gen_explanation := Some (Js.lit "...") |}.

(** A state with a captured selection, as [handleMouseUp] leaves it. *)
Definition selecting : World :=
  onApp (handleMouseUp (Some selQuantum))
        (onApp (handleFileChange (Some pdf) blobUrl) initialWorld).

(** Upload, select, submit. *)
Definition trSubmit : list Event :=
  [FileChange (Some pdf) blobUrl; MouseUp (Some selQuantum); ClickVisualize].

(** ... then a new selection while the call is still pending. *)
Definition trReselect : list Event :=
  trSubmit ++ [MouseUp (Some selDuality)].

(** Two generations for which [Math.random] yields the same value. *)
Definition trCollision : list Event :=
  trSubmit ++ [Fulfil 0 gen0 (Js.lit "0.4fzyo82mvyr") 1000%Z;
               MouseUp (Some selDuality); ClickVisualize;
               Fulfil 0 gen0 (Js.lit "0.4fzyo82mvyr") 2000%Z].

(** Two generations with distinct ids, the older one promoted afterwards. *)
Definition trTwoResults : list Event :=
  trSubmit ++ [Fulfil 0 gen0 (Js.lit "0.4fzyo82mvyr") 1000%Z;
               MouseUp (Some selDuality); ClickVisualize;
               Fulfil 0 gen0 (Js.lit "0.k1x9qz7a2bc") 2000%Z;
               ClickToggleHistory; ClickHistoryEntry 0].

Definition r1 : VisualResult :=
  newResult quantum gen0 (Js.lit "0.4fzyo82mvyr") 1000%Z.

Definition r2 : VisualResult :=
  newResult (Js.lit "Wave-Particle Duality") gen0 (Js.lit "0.k1x9qz7a2bc") 2000%Z.

Definition r3 : VisualResult :=
  newResult (Js.lit "double-slit experiment") gen0 (Js.lit "0.zzz") 3000%Z.

Definition withResults (h : list VisualResult) (s : AppState) : AppState :=
  setResults (fun _ => h) s.

(** Two calls pending: a second selection was submitted before the first
    call settled. *)
Definition twoPending : World :=
  handleVisualize
    (onApp (handleMouseUp (Some selDuality)) (handleVisualize selecting)).

Definition notPdf : File.t :=
  {| File.name := Js.lit "notes.txt"; File.type := Js.lit "text/plain" |}.



(** ** State invariants

    The predicates below are kept by every event; they are proved for all
    reachable worlds further down. *)

(** A text fit for submission: trimmed, and longer than five code units. *)
Definition submittable (t : Js.str) : Prop :=
  5 < List.length t /\ Js.trim t = t.

Definition noLeadingSpace (s : Js.str) : Prop :=
  match s with
  | [] => True
  | c :: _ => Js.isWhiteSpace c = false
  end.

(** The two messages the component ever puts in [error]. *)
Definition failureMessage : Js.str :=
  Js.lit "Failed to generate visualization. Please try again.".

Definition invalidFileMessage : Js.str :=
  Js.lit "Please select a valid PDF file.".

Definition isPdf (f : File.t) : bool :=
  Js.eqb (File.type f) (Js.lit "application/pdf").

(** What the selection cells and the texts in flight satisfy. *)
Record selectionInv (w : World) : Prop := {
  inv_selected :
    selectedText (app w) = [] \/ submittable (selectedText (app w));
  inv_anchor :
    selectionPosition (app w) <> None -> selectedText (app w) <> [];
  inv_calls : Forall submittable (calls w);
  inv_pending : incl (pending w) (calls w);
  inv_results : Forall (fun r => In (text r) (calls w)) (results (app w))
}.

(** What the status, the counters, the file cells and the error satisfy. *)
Record bookkeepingInv (w : World) : Prop := {
  inv_count :
    List.length (results (app w)) + List.length (pending w)
      <= List.length (calls w);
  inv_idle : status (app w) = IDLE <-> calls w = [];
  inv_loading : status (app w) = LOADING -> pending w <> [];
  inv_url : file (app w) = None <-> pdfUrl (app w) = None;
  inv_error :
    forall m, error (app w) = Some m ->
              m = failureMessage \/ m = invalidFileMessage
}.

(** [closeCard] applied [n] times. *)
Fixpoint closeCards (n : nat) (s : AppState) : AppState :=
  match n with
  | O => s
  | S n' => closeCards n' (closeCard s)
  end.

(** ** Basic facts *)

Lemma Js_eqb_eq (a b : Js.str) : Js.eqb a b = true <-> a = b.
Proof.
  revert b; induction a as [|c a IH]; intros [|d b]; simpl; split;
    try congruence; try reflexivity.
  - intros H. apply andb_true_iff in H as [Hc Ha].
    apply N.eqb_eq in Hc. apply IH in Ha. congruence.
  - intros H. inversion H; subst. rewrite N.eqb_refl. simpl. now apply IH.
Qed.

Lemma Js_eqb_refl (a : Js.str) : Js.eqb a a = true.
Proof. now apply Js_eqb_eq. Qed.

Lemma Js_eqb_neq (a b : Js.str) : Js.eqb a b = false <-> a <> b.
Proof.
  split.
  - intros H E. apply Js_eqb_eq in E. congruence.
  - intros H. destruct (Js.eqb a b) eqn:E; [|reflexivity].
    apply Js_eqb_eq in E. contradiction.
Qed.

Lemma Js_truthy_nonempty (s : Js.str) : Js.truthy s = true <-> s <> [].
Proof. destruct s; simpl; split; congruence. Qed.

Lemma Js_truthy_empty (s : Js.str) : Js.truthy s = false <-> s = [].
Proof. destruct s; simpl; split; congruence. Qed.

Lemma without_not_in (i : Js.str) (h : list VisualResult) :
  ~ In i (ids (without i h)).
Proof.
  unfold ids, without. intros H. apply in_map_iff in H as (r & Hid & Hr).
  apply filter_In in Hr as [_ Hr]. subst i.
  rewrite Js_eqb_refl in Hr. discriminate.
Qed.

Lemma without_absent (i : Js.str) (h : list VisualResult) :
  ~ In i (ids h) -> without i h = h.
Proof.
  unfold ids, without. induction h as [|r h IH]; simpl; intros H; [reflexivity|].
  destruct (Js.eqb (id r) i) eqn:E; simpl.
  - apply Js_eqb_eq in E. exfalso. apply H. now left.
  - f_equal. apply IH. intros Hin. apply H. now right.
Qed.

Lemma without_split (i : Js.str) (before after : list VisualResult)
    (r : VisualResult) :
  id r = i -> NoDup (ids (before ++ r :: after)) ->
  without i (before ++ r :: after) = before ++ after.
Proof.
  intros Hid Hnd. unfold ids in Hnd. rewrite map_app in Hnd. simpl in Hnd.
  pose proof (NoDup_remove_2 _ _ _ Hnd) as Hnot.
  unfold without. rewrite filter_app. simpl.
  rewrite Hid, Js_eqb_refl. simpl.
  rewrite Hid in Hnot.
  fold (without i before). fold (without i after).
  rewrite !without_absent; [reflexivity| |];
    intros Hin; apply Hnot; apply in_or_app; [right|left]; exact Hin.
Qed.

Lemma ids_without_NoDup (i : Js.str) (h : list VisualResult) :
  NoDup (ids h) -> NoDup (ids (without i h)).
Proof.
  unfold ids, without. induction h as [|r h IH]; simpl; intros H; [constructor|].
  inversion H as [|? ? Hnot Hnd]; subst.
  destruct (negb (Js.eqb (id r) i)); simpl; [|now apply IH].
  constructor; [|now apply IH].
  intros Hin. apply Hnot. apply in_map_iff in Hin as (q & Hq & Hin).
  apply filter_In in Hin as [Hin _]. apply in_map_iff. now exists q.
Qed.

(** ** Submission: [handleVisualize] *)

Lemma handleVisualize_truthy (w : World) :
  Js.truthy (selectedText (app w)) = true ->
  handleVisualize w =
    {| app := setSelectionPosition None
                (setError None (setStatus LOADING (app w)));
       calls := calls w ++ [selectedText (app w)];
       pending := pending w ++ [selectedText (app w)] |}.
Proof. intros H. unfold handleVisualize. now rewrite H. Qed.

Lemma handleVisualize_falsy (w : World) :
  Js.truthy (selectedText (app w)) = false -> handleVisualize w = w.
Proof. intros H. unfold handleVisualize. now rewrite H. Qed.

(** C10.  When the captured selection text is empty, [handleVisualize]
    returns at its guard: no call to the generation service is issued and
    the whole world (status, error, selection, history, pending calls) is
    unchanged. *)
Theorem handleVisualize_empty_selection (w : World) :
  selectedText (app w) = [] -> handleVisualize w = w.
Proof.
  intros H. apply handleVisualize_falsy. now apply Js_truthy_empty.
Qed.

Lemma handleVisualize_empty_selection_witness :
  selectedText (app (onApp (setStatus ERROR) initialWorld)) = [] /\
  handleVisualize (onApp (setStatus ERROR) initialWorld)
    = onApp (setStatus ERROR) initialWorld.
Proof.
  split; [reflexivity|].
  apply (handleVisualize_empty_selection (onApp (setStatus ERROR) initialWorld)).
  reflexivity.
Defined.

(** C2, as the code has it.  With a non-empty captured text, submitting sets
    the status to LOADING, resets the anchor to null, clears the error and
    calls the generation service once with the captured text; the captured
    text itself stays in [selectedText], and nothing else changes. *)
Theorem handleVisualize_submits (w : World) :
  selectedText (app w) <> [] ->
  status (app (handleVisualize w)) = LOADING /\
  selectionPosition (app (handleVisualize w)) = None /\
  error (app (handleVisualize w)) = None /\
  selectedText (app (handleVisualize w)) = selectedText (app w) /\
  calls (handleVisualize w) = calls w ++ [selectedText (app w)] /\
  pending (handleVisualize w) = pending w ++ [selectedText (app w)] /\
  results (app (handleVisualize w)) = results (app w) /\
  file (app (handleVisualize w)) = file (app w) /\
  pdfUrl (app (handleVisualize w)) = pdfUrl (app w) /\
  showHistory (app (handleVisualize w)) = showHistory (app w).
Proof.
  intros H. apply Js_truthy_nonempty in H.
  rewrite (handleVisualize_truthy w H). simpl. repeat split.
Qed.

Lemma handleVisualize_submits_witness :
  selectedText (app selecting) = quantum /\
  status (app (handleVisualize selecting)) = LOADING /\
  calls (handleVisualize selecting) = [quantum].
Proof.
  split; [reflexivity|].
  pose proof (handleVisualize_submits selecting) as H.
  assert (Hne : selectedText (app selecting) <> []) by (vm_compute; discriminate).
  destruct (H Hne) as (Hst & _ & _ & _ & Hcalls & _).
  split; [exact Hst|exact Hcalls].
Defined.

(** C2 as stated fails: the captured text is not reset by a submission. *)
Lemma submit_keeps_selectedText :
  selectedText (app selecting) <> [] /\
  selectionPosition (app selecting) <> None /\
  selectedText (app (handleVisualize selecting)) = quantum /\
  selectedText (app (handleVisualize selecting)) <> [].
Proof.
  repeat split; vm_compute; discriminate.
Qed.

(** ** Repeated submission *)

Lemma dispatch_ClickVisualize_inv (w w1 : World) :
  dispatch w ClickVisualize = Some w1 ->
  file (app w) <> None /\ selectionPosition (app w) <> None /\
  w1 = handleVisualize w.
Proof.
  simpl. destruct (file (app w)), (selectionPosition (app w)); simpl;
    intros H; inversion H; repeat split; discriminate.
Qed.

(** The submit control is rendered only while there is an anchor. *)
Lemma no_anchor_no_submit (w : World) :
  selectionPosition (app w) = None -> dispatch w ClickVisualize = None.
Proof.
  intros H. simpl. rewrite H. now rewrite andb_false_r.
Qed.

(** C1, as the code has it.  Submission is gated by the anchor, not by the
    status.  A submit that finds a captured text issues exactly one call and
    resets the anchor, so the submit control is gone and an immediately
    repeated submit cannot occur; a submit that finds no captured text
    changes nothing. *)
Theorem submit_twice_in_a_row (w w1 : World) :
  dispatch w ClickVisualize = Some w1 ->
  (selectedText (app w) <> [] ->
     calls w1 = calls w ++ [selectedText (app w)] /\
     pending w1 = pending w ++ [selectedText (app w)] /\
     dispatch w1 ClickVisualize = None) /\
  (selectedText (app w) = [] -> w1 = w).
Proof.
  intros H. apply dispatch_ClickVisualize_inv in H as (_ & _ & ->). split.
  - intros Hne. apply Js_truthy_nonempty in Hne.
    rewrite (handleVisualize_truthy w Hne).
    repeat split. now apply no_anchor_no_submit.
  - intros He. apply handleVisualize_falsy. now apply Js_truthy_empty.
Qed.

Lemma submit_twice_in_a_row_witness :
  dispatch selecting ClickVisualize = Some (handleVisualize selecting) /\
  calls (handleVisualize selecting) = [quantum] /\
  dispatch (handleVisualize selecting) ClickVisualize = None.
Proof.
  assert (H : dispatch selecting ClickVisualize = Some (handleVisualize selecting))
    by reflexivity.
  split; [exact H|].
  destruct (submit_twice_in_a_row selecting _ H) as [Hsub _].
  assert (Hne : selectedText (app selecting) <> []) by (vm_compute; discriminate).
  destruct (Hsub Hne) as (Hcalls & _ & Hnone).
  split; [exact Hcalls|exact Hnone].
Defined.

(** C1 as stated fails: in a reachable LOADING state (one call pending, a
    new selection captured meanwhile) the submit action issues a second call
    and changes the state. *)
Lemma loading_submit_issues_second_call :
  exists w w',
    run initialWorld trReselect = Some w /\
    status (app w) = LOADING /\
    List.length (calls w) = 1 /\ List.length (pending w) = 1 /\
    dispatch w ClickVisualize = Some w' /\
    w' = handleVisualize w /\
    w' <> w /\
    calls w' = [quantum; Js.lit "Wave-Particle Duality"] /\
    List.length (pending w') = 2.
Proof.
  eexists. eexists.
  split; [vm_compute; reflexivity|].
  repeat split; try discriminate.
Qed.

(** ** Settling a call *)

(** What a submission captures is the [selectedText] of that moment. *)
Lemma submit_captures (w : World) :
  selectedText (app w) <> [] ->
  nth_error (pending (handleVisualize w)) (List.length (pending w))
    = Some (selectedText (app w)).
Proof.
  intros H. apply Js_truthy_nonempty in H.
  rewrite (handleVisualize_truthy w H). simpl.
  rewrite nth_error_app2 by lia. now rewrite Nat.sub_diag.
Qed.

(** A later selection change does not touch what a pending call captured. *)
Lemma mouseUp_keeps_pending (w w' : World) (sel : option Selection.t) :
  dispatch w (MouseUp sel) = Some w' ->
  pending w' = pending w /\ calls w' = calls w.
Proof.
  simpl. destruct (file (app w)); simpl; intros H; inversion H; now split.
Qed.



(** The end-to-end scenario of the specification: select, submit, and the
    service answers. *)
Example scenario_success :
  exists w,
    run initialWorld
      (trSubmit ++ [Fulfil 0 gen0 (Js.lit "0.4fzyo82mvyr") 1000%Z]) = Some w /\
    status (app w) = SUCCESS /\
    selectionPosition (app w) = None /\
    option_map text (hd_error (results (app w))) = Some quantum /\
    pending w = [].
Proof. eexists. split; [vm_compute; reflexivity|]. repeat split. Qed.

(** The result carries the text captured at submission even when another
    selection was made while the call was pending. *)
Example scenario_reselect_then_success :
  exists w,
    run initialWorld
      (trReselect ++ [Fulfil 0 gen0 (Js.lit "0.4fzyo82mvyr") 1000%Z]) = Some w /\
    selectedText (app w) = Js.lit "Wave-Particle Duality" /\
    option_map text (hd_error (results (app w))) = Some quantum.
Proof. eexists. split; [vm_compute; reflexivity|]. repeat split. Qed.

(** C4.  When a pending call fails (in particular while the status is
    LOADING), the status becomes ERROR, the error message is set (non-null)
    and the history is exactly what it was. *)
Theorem reject_sets_error (w : World) (k : nat) (captured : Js.str) :
  nth_error (pending w) k = Some captured ->
  status (app w) = LOADING ->
  exists w',
    dispatch w (Reject k) = Some w' /\
    status (app w') = ERROR /\
    error (app w') =
      Some (Js.lit "Failed to generate visualization. Please try again.") /\
    error (app w') <> None /\
    results (app w') = results (app w) /\
    pending w' = removeAt k (pending w) /\
    calls w' = calls w.
Proof.
  intros Hk _. simpl. unfold settle. rewrite Hk.
  eexists. split; [reflexivity|]. simpl. repeat split. discriminate.
Qed.

Lemma reject_sets_error_witness :
  exists w', dispatch (handleVisualize selecting) (Reject 0) = Some w' /\
             status (app w') = ERROR /\ results (app w') = [].
Proof.
  destruct (reject_sets_error (handleVisualize selecting) 0 quantum
              eq_refl eq_refl)
    as (w' & Hd & Hst & _ & _ & Hres & _).
  exists w'. split; [exact Hd|]. split; [exact Hst|exact Hres].
Defined.

Example scenario_failure :
  exists w,
    run initialWorld (trSubmit ++ [Reject 0]) = Some w /\
    status (app w) = ERROR /\ error (app w) <> None /\
    List.length (results (app w)) = 0.
Proof.
  eexists. split; [vm_compute; reflexivity|]. repeat split. discriminate.
Qed.

(** ** Selection tracking: [handleMouseUp] *)

Example trim_quantum :
  Js.trim (Selection.toString selQuantum) = quantum /\ List.length quantum = 29.
Proof. split; reflexivity. Qed.

Example trim_wave :
  Js.trim (Selection.toString selWave) = Js.lit "wave".
Proof. reflexivity. Qed.

Example trim_unicode_space :
  Js.trim [160; 12288; 104; 105; 32; 33; 8232; 65279]%N = [104; 105; 32; 33]%N.
Proof. reflexivity. Qed.

Lemma trimStart_head (s : Js.str) (c : N) (s' : Js.str) :
  Js.trimStart s = c :: s' -> Js.isWhiteSpace c = false.
Proof.
  induction s as [|d s IH]; simpl; [discriminate|].
  destruct (Js.isWhiteSpace d) eqn:E; [exact IH|].
  intros H. inversion H; subst. exact E.
Qed.

Lemma trimStart_fixed (s : Js.str) : Js.trimStart (Js.trimStart s) = Js.trimStart s.
Proof.
  destruct (Js.trimStart s) as [|c s'] eqn:E; [reflexivity|].
  simpl. now rewrite (trimStart_head s c s' E).
Qed.

Lemma handleMouseUp_long (sel : Selection.t) (s : AppState) :
  5 < List.length (Js.trim (Selection.toString sel)) ->
  handleMouseUp (Some sel) s =
    setSelectionPosition
      (Some {| Position.x :=
                 (DOMRect.left (Selection.getBoundingClientRect sel)
                  + DOMRect.width (Selection.getBoundingClientRect sel) / 2)%Q;
               Position.y :=
                 (DOMRect.top (Selection.getBoundingClientRect sel) - 10)%Q |})
      (setSelectedText (Js.trim (Selection.toString sel)) s).
Proof.
  intros H. unfold handleMouseUp.
  destruct (Js.trim (Selection.toString sel)) as [|c t] eqn:E;
    [simpl in H; lia|].
  apply Nat.ltb_lt in H. rewrite H. reflexivity.
Qed.

Lemma handleMouseUp_short (sel : Selection.t) (s : AppState) :
  List.length (Js.trim (Selection.toString sel)) <= 5 ->
  handleMouseUp (Some sel) s = clearCurrentSelection s.
Proof.
  intros H. unfold handleMouseUp.
  assert (Hb : (5 <? List.length (Js.trim (Selection.toString sel))) = false)
    by (apply Nat.ltb_ge; exact H).
  rewrite Hb, andb_false_r. reflexivity.
Qed.

(** C5.  For a selection-change signal carrying text [s]: when [trim(s)] has
    at most 5 code units the tracker leaves an empty text and a null anchor;
    when it has more than 5 it leaves [trim(s)] and a non-null anchor; the
    generation status is the same before and after, in every state (also
    when there is no selection object at all). *)
Theorem handleMouseUp_spec (sel : Selection.t) (s : AppState) :
  (List.length (Js.trim (Selection.toString sel)) <= 5 ->
     selectedText (handleMouseUp (Some sel) s) = [] /\
     selectionPosition (handleMouseUp (Some sel) s) = None) /\
  (5 < List.length (Js.trim (Selection.toString sel)) ->
     selectedText (handleMouseUp (Some sel) s) = Js.trim (Selection.toString sel) /\
     selectionPosition (handleMouseUp (Some sel) s) <> None) /\
  (forall o, status (handleMouseUp o s) = status s).
Proof.
  repeat split.
  - now rewrite handleMouseUp_short.
  - now rewrite handleMouseUp_short.
  - now rewrite handleMouseUp_long.
  - rewrite handleMouseUp_long by assumption. discriminate.
  - intros [sel'|]; [|reflexivity]. unfold handleMouseUp.
    destruct (Js.truthy _ && _); reflexivity.
Qed.

Lemma handleMouseUp_spec_witness :
  (selectedText (handleMouseUp (Some selWave) (setStatus LOADING initialState)) = [] /\
   selectionPosition (handleMouseUp (Some selWave) (setStatus LOADING initialState)) = None) /\
  (selectedText (handleMouseUp (Some selQuantum) (setStatus LOADING initialState)) = quantum /\
   selectionPosition (handleMouseUp (Some selQuantum) (setStatus LOADING initialState)) <> None) /\
  status (handleMouseUp (Some selQuantum) (setStatus LOADING initialState)) = LOADING.
Proof.
  split; [|split].
  - apply (handleMouseUp_spec selWave (setStatus LOADING initialState)).
    vm_compute. lia.
  - apply (handleMouseUp_spec selQuantum (setStatus LOADING initialState)).
    vm_compute. lia.
  - apply (handleMouseUp_spec selQuantum (setStatus LOADING initialState)).
Defined.

(** The second end-to-end scenario: a 4-character selection leaves no
    anchor, so the submit control is not there. *)
Example scenario_too_short :
  exists w,
    run initialWorld [FileChange (Some pdf) blobUrl; MouseUp (Some selWave)]
      = Some w /\
    selectedText (app w) = [] /\ selectionPosition (app w) = None /\
    dispatch w ClickVisualize = None.
Proof. eexists. split; [vm_compute; reflexivity|]. repeat split. Qed.

(** ** Removing the uploaded file *)

(** C9.  The header dismiss action empties the whole history, together with
    the file and its URL, in every state; the other cells keep their
    values. *)
Theorem removeFile_clears_history (s : AppState) :
  results (removeFile s) = [] /\
  file (removeFile s) = None /\
  pdfUrl (removeFile s) = None /\
  status (removeFile s) = status s /\
  error (removeFile s) = error s /\
  selectedText (removeFile s) = selectedText s /\
  selectionPosition (removeFile s) = selectionPosition s /\
  showHistory (removeFile s) = showHistory s.
Proof. repeat split. Qed.

Lemma dispatch_ClickRemoveFile (w : World) (f : File.t) :
  file (app w) = Some f ->
  dispatch w ClickRemoveFile = Some (onApp removeFile w).
Proof. intros H. simpl. now rewrite H. Qed.

(** ** Result History: promote *)

Lemma find_id_absent (i : Js.str) (l : list VisualResult) :
  ~ In i (ids l) -> find (fun r => Js.eqb (id r) i) l = None.
Proof.
  induction l as [|r l IH]; simpl; intros H; [reflexivity|].
  destruct (Js.eqb (id r) i) eqn:E.
  - apply Js_eqb_eq in E. exfalso. apply H. now left.
  - apply IH. intros Hin. apply H. now right.
Qed.

Lemma find_id_first (i : Js.str) (l1 l2 : list VisualResult) (r : VisualResult) :
  ~ In i (ids l1) -> id r = i ->
  find (fun q => Js.eqb (id q) i) (l1 ++ r :: l2) = Some r.
Proof.
  intros Hnot Hid. induction l1 as [|q l1 IH]; simpl.
  - now rewrite Hid, Js_eqb_refl.
  - destruct (Js.eqb (id q) i) eqn:E.
    + apply Js_eqb_eq in E. exfalso. apply Hnot. now left.
    + apply IH. intros Hin. apply Hnot. now right.
Qed.

Lemma ids_app (l1 l2 : list VisualResult) : ids (l1 ++ l2) = ids l1 ++ ids l2.
Proof. apply map_app. Qed.

Lemma results_promoteApp (i : Js.str) (s : AppState) :
  results (promoteApp i s) = promote i (results s).
Proof.
  unfold promoteApp, promote, drawerEntries.
  destruct (find _ (skipn 1 (results s))); reflexivity.
Qed.

Lemma status_promoteApp (i : Js.str) (s : AppState) :
  status (promoteApp i s) = status s.
Proof.
  unfold promoteApp. destruct (find _ (drawerEntries s)); reflexivity.
Qed.

(** Promoting the id of the head, or an id the history does not hold, finds
    no drawer entry. *)
Lemma promoteApp_no_entry (i : Js.str) (s : AppState) :
  ~ In i (ids (skipn 1 (results s))) -> promoteApp i s = s.
Proof.
  intros H. unfold promoteApp, drawerEntries. now rewrite find_id_absent.
Qed.

Lemma promote_moves_to_head (i : Js.str) (h : list VisualResult) :
  NoDup (ids h) -> In i (ids h) ->
  exists r before after,
    h = before ++ r :: after /\ id r = i /\ promote i h = r :: before ++ after.
Proof.
  intros Hnd Hin. unfold ids in Hin. apply in_map_iff in Hin as (r & Hid & Hin).
  apply in_split in Hin as (before & after & ->).
  exists r, before, after. split; [reflexivity|]. split; [exact Hid|].
  pose proof Hnd as Hnd'. rewrite ids_app in Hnd'. simpl in Hnd'.
  pose proof (NoDup_remove_2 _ _ _ Hnd') as Hnot. rewrite Hid in Hnot.
  unfold promote. destruct before as [|b before].
  - simpl. rewrite find_id_absent; [reflexivity|].
    intros Hin. apply Hnot. exact Hin.
  - change (skipn 1 ((b :: before) ++ r :: after)) with (before ++ r :: after).
    rewrite (find_id_first i before after r); [|
      intros Hin; apply Hnot; simpl; right; apply in_or_app; now left | exact Hid].
    unfold promoteUpdater. rewrite Hid. f_equal.
    exact (without_split i (b :: before) after r Hid Hnd).
Qed.

(** A click on the [n]-th drawer entry is the promotion of its id. *)
Lemma dispatch_ClickHistoryEntry (w : World) (n : nat) (res : VisualResult) :
  NoDup (ids (results (app w))) ->
  showHistory (app w) = true ->
  nth_error (drawerEntries (app w)) n = Some res ->
  dispatch w (ClickHistoryEntry n) = Some (onApp (promoteApp (id res)) w).
Proof.
  intros Hnd Hshow Hn. unfold dispatch. rewrite Hshow, Hn. f_equal.
  unfold onApp. f_equal. unfold promoteApp.
  apply nth_error_split in Hn as (l1 & l2 & Hd & _).
  rewrite Hd. rewrite (find_id_first (id res) l1 l2 res); [reflexivity| |reflexivity].
  unfold drawerEntries in Hd.
  destruct (results (app w)) as [|r t]; simpl in Hd;
    [destruct l1; discriminate|].
  subst t. inversion Hnd as [|? ? _ Hnd']; subst.
  rewrite ids_app in Hnd'. simpl in Hnd'. apply NoDup_remove_2 in Hnd'.
  intros Hin. apply Hnd'. apply in_or_app. now left.
Qed.

(** ** Result History: dismissing the head *)

Lemma closeCard_results (s : AppState) (h : VisualResult) (t : list VisualResult) :
  results s = h :: t ->
  results (closeCard s) = without (id h) t.
Proof.
  intros H. unfold closeCard. rewrite H. simpl. rewrite H.
  unfold closeUpdater. simpl. now rewrite Js_eqb_refl.
Qed.

(** C7, as the code has it.  On a non-empty history, dismissing the card
    removes every entry that carries the head's id: the head itself and,
    when ids repeat, the other entries with that id.  No entry with the
    head's id is left; what remains is the tail filtered by that id, so the
    remaining entries keep their relative order; when the history has no
    duplicate ids what remains is exactly the tail, that is, exactly the
    head entry is removed.  The generation status and every other cell are
    unchanged. *)
Theorem closeCard_removes_head (s : AppState) (h : VisualResult)
    (t : list VisualResult) :
  results s = h :: t ->
  ~ In (id h) (ids (results (closeCard s))) /\
  results (closeCard s) = without (id h) t /\
  (NoDup (ids (results s)) -> results (closeCard s) = t) /\
  status (closeCard s) = status s /\
  error (closeCard s) = error s /\
  selectedText (closeCard s) = selectedText s /\
  selectionPosition (closeCard s) = selectionPosition s /\
  file (closeCard s) = file s /\
  showHistory (closeCard s) = showHistory s.
Proof.
  intros H. rewrite (closeCard_results s h t H).
  split; [apply without_not_in|]. split; [reflexivity|]. split.
  - rewrite H. intros Hnd. apply without_absent.
    unfold ids in Hnd. simpl in Hnd. now inversion Hnd.
  - unfold closeCard. rewrite H. repeat split.
Qed.

Lemma closeCard_removes_head_witness :
  results (closeCard (setStatus LOADING (withResults [r3; r2; r1] initialState)))
    = [r2; r1] /\
  status (closeCard (setStatus LOADING (withResults [r3; r2; r1] initialState)))
    = LOADING.
Proof.
  destruct (closeCard_removes_head
              (setStatus LOADING (withResults [r3; r2; r1] initialState))
              r3 [r2; r1] eq_refl) as (_ & _ & Htail & Hst & _).
  split; [|exact Hst].
  apply Htail. vm_compute. repeat constructor; simpl; intuition discriminate.
Defined.

Lemma dispatch_ClickCardClose (w : World) (h : VisualResult)
    (t : list VisualResult) :
  results (app w) = h :: t ->
  dispatch w ClickCardClose = Some (onApp closeCard w).
Proof. intros H. simpl. now rewrite H. Qed.

(** ** Uniqueness of ids *)

Lemma handleFileChange_results (picked : option File.t) (url : Js.str)
    (s : AppState) :
  results (handleFileChange picked url s) = results s.
Proof.
  unfold handleFileChange. destruct picked as [f|]; [|reflexivity].
  destruct (Js.eqb _ _); reflexivity.
Qed.

Lemma handleMouseUp_results (o : option Selection.t) (s : AppState) :
  results (handleMouseUp o s) = results s.
Proof.
  unfold handleMouseUp. destruct o as [sel|]; [|reflexivity].
  destruct (Js.truthy _ && _); reflexivity.
Qed.

Lemma handleVisualize_results (w : World) :
  results (app (handleVisualize w)) = results (app w).
Proof.
  unfold handleVisualize. destruct (negb _); reflexivity.
Qed.

Lemma promoteUpdater_NoDup (res : VisualResult) (h : list VisualResult) :
  NoDup (ids h) -> NoDup (ids (promoteUpdater res h)).
Proof.
  intros H. unfold promoteUpdater. fold (without (id res) h).
  unfold ids. simpl. constructor.
  - apply without_not_in.
  - now apply ids_without_NoDup.
Qed.

(** One event keeps the ids distinct, provided a fulfilled generation brings
    an id the history does not hold. *)
Lemma dispatch_NoDup (w w' : World) (e : Event) :
  NoDup (ids (results (app w))) ->
  match e with
  | Fulfil _ _ rnd36 _ => ~ In (Js.substr 2 9 rnd36) (ids (results (app w)))
  | _ => True
  end ->
  dispatch w e = Some w' ->
  NoDup (ids (results (app w'))).
Proof.
  intros Hnd Hfresh.
  destruct e; unfold dispatch, whenb, settle;
    repeat match goal with
           | |- context [if ?b then _ else _] => destruct b
           | |- context [match nth_error ?l ?n with _ => _ end] =>
               destruct (nth_error l n)
           end;
    intros H; inversion H; subst; clear H; simpl;
    rewrite ?handleFileChange_results, ?handleMouseUp_results,
            ?handleVisualize_results;
    try assumption.
  - constructor; assumption.
  - constructor.
  - unfold closeCard. destruct (results (app w)) as [|h t] eqn:E;
      [rewrite E; constructor|].
    simpl. rewrite E. unfold closeUpdater. fold (without (id h) (h :: t)).
    now apply ids_without_NoDup.
  - now apply promoteUpdater_NoDup.
Qed.

Lemma run_NoDup (tr : list Event) (w w' : World) :
  NoDup (ids (results (app w))) ->
  freshIds w tr ->
  run w tr = Some w' ->
  NoDup (ids (results (app w'))).
Proof.
  revert w. induction tr as [|e tr IH]; simpl; intros w Hnd Hfresh Hrun.
  - inversion Hrun; subst. exact Hnd.
  - destruct Hfresh as [He Hrest].
    destruct (dispatch w e) as [w1|] eqn:Hd; [|discriminate].
    apply (IH w1); auto.
    apply (dispatch_NoDup w w1 e); auto.
Qed.

(** C8, as the code has it.  Inserting a result whose id the history does
    not hold keeps the ids distinct, and so do promotion, dismissal and
    removal of the file: in every state reached by a run in which each
    generated id is new to the history at that moment, no two entries of the
    history share an id.  The code itself does not check the generated id. *)
Theorem fresh_ids_no_duplicates (tr : list Event) (w : World) :
  run initialWorld tr = Some w ->
  freshIds initialWorld tr ->
  NoDup (ids (results (app w))).
Proof.
  intros Hrun Hfresh. apply (run_NoDup tr initialWorld w); auto.
  constructor.
Qed.

Lemma fresh_ids_no_duplicates_witness :
  exists w, run initialWorld trTwoResults = Some w /\
            results (app w) = [r1; r2] /\
            NoDup (ids (results (app w))).
Proof.
  eexists. split; [vm_compute; reflexivity|]. split; [reflexivity|].
  apply (fresh_ids_no_duplicates trTwoResults).
  - vm_compute. reflexivity.
  - simpl. repeat split; try exact I; vm_compute; intuition discriminate.
Defined.

(** C8 as stated fails: when [Math.random] yields the same value for two
    generations, a reachable history holds two entries with one id. *)
Lemma colliding_ids_reachable :
  exists w,
    run initialWorld trCollision = Some w /\
    ids (results (app w)) = [Js.lit "4fzyo82mv"; Js.lit "4fzyo82mv"] /\
    ~ NoDup (ids (results (app w))).
Proof.
  eexists. split; [vm_compute; reflexivity|]. split; [reflexivity|].
  intros H. inversion H as [|? ? Hnot _]; subst. apply Hnot. now left.
Qed.

(** ** A reachable-state invariant of the selection cells

    Whenever the anchor is set, the captured text is longer than five code
    units: in a reachable state the submit control, when rendered, always
    finds a text to submit. *)

Lemma dispatch_anchor_has_text (w w' : World) (e : Event) :
  (selectionPosition (app w) <> None -> 5 < List.length (selectedText (app w))) ->
  dispatch w e = Some w' ->
  selectionPosition (app w') <> None -> 5 < List.length (selectedText (app w')).
Proof.
  intros Hinv.
  destruct e; unfold dispatch, whenb, settle;
    repeat match goal with
           | |- context [if ?b then _ else _] => destruct b
           | |- context [match nth_error ?l ?n with _ => _ end] =>
               destruct (nth_error l n)
           end;
    intros H; inversion H; subst; clear H; try exact Hinv.
  - simpl. unfold handleFileChange. destruct picked as [f|]; [|exact Hinv].
    destruct (Js.eqb _ _); exact Hinv.
  - simpl. destruct selection as [sel|]; [|simpl; congruence].
    destruct (Nat.le_gt_cases (List.length (Js.trim (Selection.toString sel))) 5)
      as [Hs|Hl].
    + rewrite (handleMouseUp_short sel _ Hs). simpl. congruence.
    + rewrite (handleMouseUp_long sel _ Hl). simpl. intros _. exact Hl.
  - unfold handleVisualize. destruct (negb _); [exact Hinv|]. simpl. congruence.
  - simpl. unfold closeCard. destruct (results (app w)); exact Hinv.
Qed.

Lemma reachable_anchor_has_text (w : World) :
  reachable w ->
  selectionPosition (app w) <> None -> 5 < List.length (selectedText (app w)).
Proof.
  intros [tr Hrun]. revert Hrun.
  assert (Hgen : forall tr w0,
             (selectionPosition (app w0) <> None ->
              5 < List.length (selectedText (app w0))) ->
             run w0 tr = Some w ->
             selectionPosition (app w) <> None ->
             5 < List.length (selectedText (app w))).
  { clear tr. induction tr as [|e tr IH]; simpl; intros w0 Hinv Hrun.
    - inversion Hrun; subst. exact Hinv.
    - destruct (dispatch w0 e) as [w1|] eqn:Hd; [|discriminate].
      apply (IH w1); [|exact Hrun].
      now apply (dispatch_anchor_has_text w0 w1 e). }
  apply Hgen. simpl. congruence.
Qed.

(** X3.  In a reachable state, every click on the submit control issues a
    call with the captured text and sets the status to LOADING, whatever the
    status was. *)
Lemma reachable_submit_calls (w w' : World) :
  reachable w ->
  dispatch w ClickVisualize = Some w' ->
  calls w' = calls w ++ [selectedText (app w)] /\ status (app w') = LOADING.
Proof.
  intros Hr Hd. apply dispatch_ClickVisualize_inv in Hd as (_ & Hpos & ->).
  pose proof (reachable_anchor_has_text w Hr Hpos) as Hlen.
  assert (Ht : Js.truthy (selectedText (app w)) = true)
    by (destruct (selectedText (app w)); [simpl in Hlen; lia|reflexivity]).
  rewrite (handleVisualize_truthy w Ht). now split.
Qed.

(** ** Reachability *)

Lemma run_app (tr1 tr2 : list Event) (w : World) :
  run w (tr1 ++ tr2) =
    match run w tr1 with
    | Some w1 => run w1 tr2
    | None => None
    end.
Proof.
  revert w. induction tr1 as [|e tr1 IH]; simpl; intros w; [reflexivity|].
  destruct (dispatch w e); [apply IH|reflexivity].
Qed.

Lemma reachable_step (w w' : World) (e : Event) :
  reachable w -> dispatch w e = Some w' -> reachable w'.
Proof.
  intros [tr Hrun] Hd. exists (tr ++ [e]).
  rewrite run_app, Hrun. simpl. now rewrite Hd.
Qed.

(** A predicate that holds initially and is kept by every event holds in
    every reachable world. *)
Lemma reachable_invariant (P : World -> Prop) :
  P initialWorld ->
  (forall w e w', P w -> dispatch w e = Some w' -> P w') ->
  forall w, reachable w -> P w.
Proof.
  intros H0 Hstep w [tr Hrun].
  assert (Hgen : forall tr w0, P w0 -> run w0 tr = Some w -> P w).
  { clear tr Hrun. induction tr as [|e tr IH]; simpl; intros w0 Hw0 Hrun.
    - now inversion Hrun; subst.
    - destruct (dispatch w0 e) as [w1|] eqn:Hd; [|discriminate].
      apply (IH w1); [|exact Hrun]. now apply (Hstep w0 e). }
  now apply (Hgen tr initialWorld).
Qed.

(** Case analysis on an enabled event: one goal per way [dispatch] can
    answer [Some]. *)
Ltac dispatch_inv H :=
  unfold dispatch, whenb, settle in H;
  repeat match type of H with
         | context [if ?b then _ else _] => destruct b eqn:?
         | context [match nth_error ?l ?n with _ => _ end] =>
             destruct (nth_error l n) eqn:?
         end;
  inversion H; subst; clear H.

(** ** What [trim] returns *)

Lemma trimStart_noLeadingSpace (s : Js.str) : noLeadingSpace (Js.trimStart s).
Proof.
  destruct (Js.trimStart s) as [|c s'] eqn:E; simpl; [exact I|].
  exact (trimStart_head s c s' E).
Qed.

Lemma trimStart_id (s : Js.str) : noLeadingSpace s -> Js.trimStart s = s.
Proof. destruct s as [|c s]; simpl; [reflexivity|]. now intros ->. Qed.

Lemma trimStart_snoc (s : Js.str) (c : N) :
  Js.isWhiteSpace c = false -> Js.trimStart (s ++ [c]) = Js.trimStart s ++ [c].
Proof.
  intros Hc. induction s as [|d s IH]; simpl.
  - now rewrite Hc.
  - destruct (Js.isWhiteSpace d); [exact IH|reflexivity].
Qed.

Lemma trimEnd_cons (c : N) (s : Js.str) :
  Js.isWhiteSpace c = false -> Js.trimEnd (c :: s) = c :: Js.trimEnd s.
Proof.
  intros Hc. unfold Js.trimEnd. simpl.
  rewrite (trimStart_snoc (rev s) c Hc), rev_app_distr. reflexivity.
Qed.

Lemma trimEnd_noLeadingSpace (s : Js.str) :
  noLeadingSpace s -> noLeadingSpace (Js.trimEnd s).
Proof.
  destruct s as [|c s]; simpl; intros H; [exact I|].
  now rewrite (trimEnd_cons c s H).
Qed.

Lemma trimEnd_fixed (s : Js.str) : Js.trimEnd (Js.trimEnd s) = Js.trimEnd s.
Proof.
  unfold Js.trimEnd. now rewrite rev_involutive, trimStart_fixed.
Qed.

Lemma trim_noLeadingSpace (s : Js.str) : noLeadingSpace (Js.trim s).
Proof. apply trimEnd_noLeadingSpace, trimStart_noLeadingSpace. Qed.

Lemma trim_noTrailingSpace (s : Js.str) : noLeadingSpace (rev (Js.trim s)).
Proof.
  unfold Js.trim, Js.trimEnd. rewrite rev_involutive.
  apply trimStart_noLeadingSpace.
Qed.

Lemma trim_fixed (s : Js.str) : Js.trim (Js.trim s) = Js.trim s.
Proof.
  unfold Js.trim at 1. rewrite (trimStart_id _ (trim_noLeadingSpace s)).
  unfold Js.trim. apply trimEnd_fixed.
Qed.

(** ** Which cells each handler leaves alone *)

Lemma handleFileChange_frame (picked : option File.t) (url : Js.str)
    (s : AppState) :
  selectedText (handleFileChange picked url s) = selectedText s /\
  selectionPosition (handleFileChange picked url s) = selectionPosition s /\
  results (handleFileChange picked url s) = results s /\
  status (handleFileChange picked url s) = status s /\
  showHistory (handleFileChange picked url s) = showHistory s.
Proof.
  unfold handleFileChange. destruct picked as [f|]; [|repeat split].
  destruct (Js.eqb _ _); repeat split.
Qed.

Lemma handleMouseUp_frame (o : option Selection.t) (s : AppState) :
  file (handleMouseUp o s) = file s /\
  pdfUrl (handleMouseUp o s) = pdfUrl s /\
  results (handleMouseUp o s) = results s /\
  status (handleMouseUp o s) = status s /\
  error (handleMouseUp o s) = error s /\
  showHistory (handleMouseUp o s) = showHistory s.
Proof.
  unfold handleMouseUp. destruct o as [sel|]; [|repeat split].
  destruct (Js.truthy _ && _); repeat split.
Qed.

Lemma handleMouseUp_cases (o : option Selection.t) (s : AppState) :
  (selectedText (handleMouseUp o s) = [] /\
   selectionPosition (handleMouseUp o s) = None) \/
  (exists sel, o = Some sel /\
     5 < List.length (Js.trim (Selection.toString sel)) /\
     selectedText (handleMouseUp o s) = Js.trim (Selection.toString sel)).
Proof.
  destruct o as [sel|]; [|left; now split].
  destruct (Nat.le_gt_cases (List.length (Js.trim (Selection.toString sel))) 5)
    as [Hs|Hl].
  - left. rewrite (handleMouseUp_short sel s Hs). now split.
  - right. exists sel. rewrite (handleMouseUp_long sel s Hl). now repeat split.
Qed.

Lemma closeCard_frame (s : AppState) :
  file (closeCard s) = file s /\ pdfUrl (closeCard s) = pdfUrl s /\
  selectedText (closeCard s) = selectedText s /\
  selectionPosition (closeCard s) = selectionPosition s /\
  status (closeCard s) = status s /\ error (closeCard s) = error s /\
  showHistory (closeCard s) = showHistory s.
Proof. unfold closeCard. destruct (results s); repeat split. Qed.

Lemma closeCard_results_incl (s : AppState) :
  incl (results (closeCard s)) (results s).
Proof.
  unfold closeCard. destruct (results s) as [|h t] eqn:E.
  - rewrite E. apply incl_refl.
  - simpl. rewrite E. unfold closeUpdater. apply incl_filter.
Qed.

Lemma removeAt_incl {A} (k : nat) (l : list A) : incl (removeAt k l) l.
Proof.
  unfold removeAt. intros a Hin. apply in_app_or in Hin as [Hin|Hin].
  - rewrite <- (firstn_skipn k l). apply in_or_app. now left.
  - rewrite <- (firstn_skipn (S k) l). apply in_or_app. now right.
Qed.

Lemma removeAt_length {A} (k : nat) (l : list A) (a : A) :
  nth_error l k = Some a -> S (List.length (removeAt k l)) = List.length l.
Proof.
  intros H. unfold removeAt.
  assert (Hk : k < List.length l) by (apply nth_error_Some; congruence).
  rewrite length_app, length_firstn, length_skipn. lia.
Qed.

(** ** The invariants hold in every reachable world *)

Lemma drawerEntries_incl (s : AppState) : incl (drawerEntries s) (results s).
Proof.
  unfold drawerEntries. destruct (results s) as [|h t]; simpl;
    [apply incl_refl|apply incl_tl, incl_refl].
Qed.

Lemma submittable_nonempty (t : Js.str) : submittable t -> t <> [].
Proof. intros [Hl _] ->. simpl in Hl. lia. Qed.

Lemma selectionInv_initial : selectionInv initialWorld.
Proof.
  constructor; simpl.
  - now left.
  - congruence.
  - constructor.
  - apply incl_refl.
  - constructor.
Qed.

Lemma selectionInv_step (w w' : World) (e : Event) :
  selectionInv w -> dispatch w e = Some w' -> selectionInv w'.
Proof.
  intros [Hsel Hanc Hcalls Hpend Hres] H. destruct e; dispatch_inv H.
  - (* FileChange *)
    destruct (handleFileChange_frame picked url (app w)) as (Ht & Hp & Hr & _).
    constructor; cbn [app onApp calls pending]; rewrite ?Ht, ?Hp, ?Hr; assumption.
  - (* MouseUp *)
    destruct (handleMouseUp_frame selection (app w)) as (_ & _ & Hr & _).
    constructor; cbn [app onApp calls pending]; rewrite ?Hr; try assumption.
    + destruct (handleMouseUp_cases selection (app w))
        as [[Ht _]|(sel & -> & Hl & Ht)]; [now left|right].
      rewrite Ht. split; [exact Hl|apply trim_fixed].
    + destruct (handleMouseUp_cases selection (app w))
        as [[_ Hp]|(sel & -> & Hl & Ht)]; [congruence|].
      intros _. rewrite Ht. intros E. rewrite E in Hl. simpl in Hl. lia.
  - (* ClickVisualize *)
    destruct (Js.truthy (selectedText (app w))) eqn:Ht.
    + rewrite (handleVisualize_truthy w Ht).
      apply Js_truthy_nonempty in Ht.
      destruct Hsel as [Hsel|Hsel]; [contradiction|].
      constructor; cbn.
      * now right.
      * congruence.
      * apply Forall_app. split; [exact Hcalls|now constructor].
      * apply incl_app; [apply incl_appl; exact Hpend|apply incl_appr, incl_refl].
      * eapply Forall_impl; [|exact Hres]. intros r Hr. apply in_or_app. now left.
    + rewrite (handleVisualize_falsy w Ht). now constructor.
  - (* Fulfil *)
    constructor; cbn; try assumption.
    + eapply incl_tran; [apply removeAt_incl|exact Hpend].
    + constructor; [|exact Hres]. cbn. apply Hpend.
      eapply nth_error_In; eassumption.
  - (* Reject *)
    constructor; cbn; try assumption.
    eapply incl_tran; [apply removeAt_incl|exact Hpend].
  - (* ClickRemoveFile *)
    constructor; cbn; try assumption. constructor.
  - (* ClickToggleHistory *)
    constructor; cbn; assumption.
  - (* ClickCloseHistory *)
    constructor; cbn; assumption.
  - (* ClickCardClose *)
    destruct (closeCard_frame (app w)) as (_ & _ & Ht & Hp & _).
    constructor; cbn [app onApp calls pending]; rewrite ?Ht, ?Hp; try assumption.
    rewrite Forall_forall in *. intros r Hr. apply Hres.
    now apply closeCard_results_incl.
  - (* ClickHistoryEntry *)
    constructor; cbn; try assumption.
    rewrite Forall_forall in *. intros r [<-|Hr].
    + apply Hres. apply drawerEntries_incl. eapply nth_error_In; eassumption.
    + apply Hres. apply filter_In in Hr. tauto.
  - (* ClickDismissError *)
    constructor; cbn; assumption.
Qed.

Lemma reachable_selectionInv (w : World) : reachable w -> selectionInv w.
Proof.
  apply reachable_invariant; [exact selectionInv_initial|].
  intros w0 e w1. apply selectionInv_step.
Qed.

Lemma without_length_lt (r : VisualResult) (h : list VisualResult) :
  In r h -> List.length (without (id r) h) < List.length h.
Proof.
  unfold without. induction h as [|q h IH]; simpl; [contradiction|].
  intros [->|Hin].
  - rewrite Js_eqb_refl. simpl.
    pose proof (filter_length_le (fun p => negb (Js.eqb (id p) (id r))) h). lia.
  - specialize (IH Hin). destruct (negb _); simpl; lia.
Qed.

Lemma bookkeepingInv_initial : bookkeepingInv initialWorld.
Proof.
  constructor; simpl; try tauto; try lia; congruence.
Qed.

Lemma bookkeepingInv_step (w w' : World) (e : Event) :
  bookkeepingInv w -> dispatch w e = Some w' -> bookkeepingInv w'.
Proof.
  intros [Hcount Hidle Hload Hurl Herr] H. destruct e; dispatch_inv H.
  - (* FileChange *)
    destruct (handleFileChange_frame picked url (app w)) as (_ & _ & Hr & Hs & _).
    constructor; cbn [app onApp calls pending]; rewrite ?Hr, ?Hs; try assumption.
    + unfold handleFileChange. destruct picked as [f|]; [|exact Hurl].
      destruct (Js.eqb _ _); [simpl; split; discriminate|exact Hurl].
    + unfold handleFileChange. destruct picked as [f|]; [|exact Herr].
      destruct (Js.eqb _ _); simpl; [discriminate|].
      intros m Hm. inversion Hm. now right.
  - (* MouseUp *)
    destruct (handleMouseUp_frame selection (app w))
      as (Hf & Hu & Hr & Hs & He & _).
    constructor; cbn [app onApp calls pending];
      rewrite ?Hf, ?Hu, ?Hr, ?Hs, ?He; assumption.
  - (* ClickVisualize *)
    destruct (Js.truthy (selectedText (app w))) eqn:Ht.
    + rewrite (handleVisualize_truthy w Ht).
      constructor; cbn; rewrite ?length_app; cbn; try assumption.
      * lia.
      * split; [discriminate|]. intros E. now apply app_eq_nil in E as [_ E].
      * intros _ E. now apply app_eq_nil in E as [_ E].
      * discriminate.
    + rewrite (handleVisualize_falsy w Ht). now constructor.
  - (* Fulfil *)
    match goal with Hk : nth_error _ _ = Some _ |- _ =>
      pose proof (removeAt_length _ _ _ Hk) as Hlen end.
    constructor; cbn; try assumption.
    + lia.
    + split; [discriminate|]. intros E. rewrite E in Hcount. simpl in Hcount. lia.
    + discriminate.
  - (* Reject *)
    match goal with Hk : nth_error _ _ = Some _ |- _ =>
      pose proof (removeAt_length _ _ _ Hk) as Hlen end.
    constructor; cbn; try assumption.
    + lia.
    + split; [discriminate|]. intros E. rewrite E in Hcount. simpl in Hcount. lia.
    + discriminate.
    + intros m Hm. inversion Hm. now left.
  - (* ClickRemoveFile *)
    constructor; cbn; try assumption; try tauto. lia.
  - (* ClickToggleHistory *)
    constructor; cbn; assumption.
  - (* ClickCloseHistory *)
    constructor; cbn; assumption.
  - (* ClickCardClose *)
    destruct (closeCard_frame (app w)) as (Hf & Hu & _ & _ & Hs & He & _).
    constructor; cbn [app onApp calls pending];
      rewrite ?Hf, ?Hu, ?Hs, ?He; try assumption.
    assert (List.length (results (closeCard (app w)))
            <= List.length (results (app w))); [|lia].
    unfold closeCard. destruct (results (app w)) as [|h t] eqn:E;
      [now rewrite E|].
    simpl. rewrite E. apply filter_length_le.
  - (* ClickHistoryEntry *)
    constructor; cbn; try assumption.
    match goal with Hn : nth_error (drawerEntries _) _ = Some ?res |- _ =>
      assert (Hin : In res (results (app w)))
        by (apply drawerEntries_incl; eapply nth_error_In; exact Hn);
      pose proof (without_length_lt res _ Hin) as Hlt end.
    unfold without in Hlt. lia.
  - (* ClickDismissError *)
    constructor; cbn; try assumption. discriminate.
Qed.

Lemma reachable_bookkeepingInv (w : World) : reachable w -> bookkeepingInv w.
Proof.
  apply reachable_invariant; [exact bookkeepingInv_initial|].
  intros w0 e w1. apply bookkeepingInv_step.
Qed.

(** ** Properties of every reachable world *)

Lemma reachable_submitted : reachable (handleVisualize selecting).
Proof. exists trSubmit. reflexivity. Qed.

Lemma reachable_selecting : reachable selecting.
Proof.
  exists [FileChange (Some pdf) blobUrl; MouseUp (Some selQuantum)]. reflexivity.
Qed.

Lemma reachable_submit_calls_witness :
  calls (handleVisualize selecting) = calls selecting ++ [quantum] /\
  status (app (handleVisualize selecting)) = LOADING.
Proof.
  apply (reachable_submit_calls selecting (handleVisualize selecting)).
  - exact reachable_selecting.
  - reflexivity.
Defined.

(** X1.  Every text ever passed to the generation service is trimmed and
    longer than five code units. *)
Theorem service_texts_submittable (w : World) :
  reachable w -> Forall submittable (calls w).
Proof. intros H. exact (inv_calls w (reachable_selectionInv w H)). Qed.

Lemma service_texts_submittable_witness :
  Forall submittable (calls (handleVisualize selecting)).
Proof.
  apply (service_texts_submittable (handleVisualize selecting)).
  exact reachable_submitted.
Defined.

(** X2.  Every entry of the history carries a text that was passed to the
    generation service, hence a trimmed text longer than five code units. *)
Theorem history_texts_were_submitted (w : World) (r : VisualResult) :
  reachable w -> In r (results (app w)) ->
  In (text r) (calls w) /\ submittable (text r).
Proof.
  intros H Hin. pose proof (reachable_selectionInv w H) as [_ _ Hcalls _ Hres].
  rewrite Forall_forall in Hres, Hcalls.
  split; [now apply Hres|]. apply Hcalls. now apply Hres.
Qed.

Lemma history_texts_were_submitted_witness :
  exists w, run initialWorld trTwoResults = Some w /\
            In (text r2) (calls w) /\ submittable (text r2).
Proof.
  eexists. split; [vm_compute; reflexivity|].
  apply (history_texts_were_submitted _ r2).
  - exists trTwoResults. vm_compute. reflexivity.
  - simpl. right. left. reflexivity.
Defined.

(** X4.  The status is IDLE exactly as long as no request was ever
    submitted: once a call has been issued the status never returns to
    IDLE, whatever is dismissed or removed afterwards. *)
Theorem status_idle_iff_no_call (w : World) :
  reachable w -> (status (app w) = IDLE <-> calls w = []).
Proof. intros H. exact (inv_idle w (reachable_bookkeepingInv w H)). Qed.

Lemma status_idle_iff_no_call_witness :
  status (app selecting) = IDLE <-> calls selecting = [].
Proof.
  apply (status_idle_iff_no_call selecting). exact reachable_selecting.
Defined.

(** X5.  Whenever the status is LOADING, at least one call is pending. *)
Theorem loading_has_pending (w : World) :
  reachable w -> status (app w) = LOADING -> pending w <> [].
Proof. intros H. exact (inv_loading w (reachable_bookkeepingInv w H)). Qed.

Lemma loading_has_pending_witness : pending (handleVisualize selecting) <> [].
Proof.
  apply (loading_has_pending (handleVisualize selecting)).
  - exact reachable_submitted.
  - reflexivity.
Defined.

(** X6.  The history never holds more entries than calls have been
    fulfilled: entries and pending calls together never outnumber the calls
    issued. *)
Theorem results_count_bound (w : World) :
  reachable w ->
  List.length (results (app w)) + List.length (pending w)
    <= List.length (calls w).
Proof. intros H. exact (inv_count w (reachable_bookkeepingInv w H)). Qed.

Lemma results_count_bound_witness :
  List.length (results (app (handleVisualize selecting)))
  + List.length (pending (handleVisualize selecting))
    <= List.length (calls (handleVisualize selecting)).
Proof.
  apply (results_count_bound (handleVisualize selecting)).
  exact reachable_submitted.
Defined.

(** X7.  The file and its object URL are set together and cleared together:
    one is null exactly when the other is. *)
Theorem file_url_in_sync (w : World) :
  reachable w -> (file (app w) = None <-> pdfUrl (app w) = None).
Proof. intros H. exact (inv_url w (reachable_bookkeepingInv w H)). Qed.

Lemma file_url_in_sync_witness :
  file (app selecting) = None <-> pdfUrl (app selecting) = None.
Proof.
  apply (file_url_in_sync selecting). exact reachable_selecting.
Defined.

(** X8.  The error cell only ever holds one of the two messages of the
    component: the generation failure or the invalid file. *)
Theorem error_is_known_message (w : World) (m : Js.str) :
  reachable w -> error (app w) = Some m ->
  m = failureMessage \/ m = invalidFileMessage.
Proof. intros H. exact (inv_error w (reachable_bookkeepingInv w H) m). Qed.

Lemma error_is_known_message_witness :
  exists w, run initialWorld (trSubmit ++ [Reject 0]) = Some w /\
            (failureMessage = failureMessage \/
             failureMessage = invalidFileMessage).
Proof.
  eexists. split; [vm_compute; reflexivity|].
  eapply (error_is_known_message _ failureMessage).
  - exists (trSubmit ++ [Reject 0]). vm_compute. reflexivity.
  - reflexivity.
Defined.

(** X9.  The last selection wins: a selection change overwrites whatever an
    earlier one left, so two changes in a row act as the second alone (and a
    repeated change as a single one). *)
Theorem mouseUp_last_wins (o o' : option Selection.t) (s : AppState) :
  handleMouseUp o (handleMouseUp o' s) = handleMouseUp o s.
Proof.
  unfold handleMouseUp.
  destruct o' as [sel'|]; [destruct (Js.truthy _ && _)|];
    (destruct o as [sel|]; [destruct (Js.truthy _ && _)|]); reflexivity.
Qed.

(** ** Uploading and removing the file *)

(** X10.  A file-change event leaves a document exactly when a file of type
    [application/pdf] was picked; such a file is stored with its URL and
    clears the error.  Any other file is rejected: no document, and the
    invalid-file message is set.  Cancelling the picker changes nothing. *)
Theorem upload_accepted_iff_pdf (w w' : World) (picked : option File.t)
    (url : Js.str) :
  dispatch w (FileChange picked url) = Some w' ->
  (file (app w') <> None <-> exists f, picked = Some f /\ isPdf f = true) /\
  (forall f, picked = Some f -> isPdf f = true ->
     file (app w') = Some f /\ pdfUrl (app w') = Some url /\
     error (app w') = None) /\
  (forall f, picked = Some f -> isPdf f = false ->
     file (app w') = None /\ pdfUrl (app w') = pdfUrl (app w) /\
     error (app w') = Some invalidFileMessage) /\
  (picked = None -> w' = w).
Proof.
  intros H. dispatch_inv H.
  assert (Hnone : file (app w) = None)
    by (destruct (file (app w)); [discriminate|reflexivity]).
  unfold handleFileChange.
  destruct picked as [f|];
    [change (Js.eqb (File.type f) (Js.lit "application/pdf")) with (isPdf f);
     destruct (isPdf f) eqn:E|]; cbn;
    (split; [|split; [|split]]).
  - split; [intros _; exists f; now split|discriminate].
  - intros g Hg _. inversion Hg; subst. now repeat split.
  - intros g Hg Hf. inversion Hg; subst. congruence.
  - discriminate.
  - rewrite Hnone. split; [congruence|].
    intros (g & Hg & Hf). inversion Hg; subst. congruence.
  - intros g Hg Hf. inversion Hg; subst. congruence.
  - intros g Hg Hf. rewrite Hnone. now repeat split.
  - discriminate.
  - rewrite Hnone. split; [congruence|]. intros (g & Hg & _). discriminate.
  - discriminate.
  - discriminate.
  - intros _. now destruct w.
Qed.

Lemma upload_accepted_iff_pdf_witness :
  (file (app (onApp (handleFileChange (Some pdf) blobUrl) initialWorld))
     = Some pdf) /\
  (error (app (onApp (handleFileChange (Some notPdf) blobUrl) initialWorld))
     = Some invalidFileMessage).
Proof.
  split.
  - destruct (upload_accepted_iff_pdf initialWorld _ (Some pdf) blobUrl eq_refl)
      as (_ & Hok & _).
    apply (Hok pdf); reflexivity.
  - destruct (upload_accepted_iff_pdf initialWorld _ (Some notPdf) blobUrl eq_refl)
      as (_ & _ & Hbad & _).
    apply (Hbad notPdf); reflexivity.
Defined.

(** X11.  Removing the file does not cancel a pending call: when that call
    is fulfilled afterwards, its result becomes the only entry of the
    emptied history, although no document is loaded. *)
Theorem pending_call_survives_file_removal (w : World) (f : File.t)
    (k : nat) (t : Js.str) (g : Generated) (rnd36 : Js.str) (now : Z) :
  file (app w) = Some f ->
  nth_error (pending w) k = Some t ->
  exists w',
    run w [ClickRemoveFile; Fulfil k g rnd36 now] = Some w' /\
    file (app w') = None /\
    results (app w') = [newResult t g rnd36 now] /\
    status (app w') = SUCCESS.
Proof.
  intros Hf Hk. cbn [run]. unfold dispatch at 1. rewrite Hf. cbn [isSome whenb].
  unfold dispatch, settle. cbn [pending onApp]. rewrite Hk.
  eexists. split; [reflexivity|]. now repeat split.
Qed.

Lemma pending_call_survives_file_removal_witness :
  exists w',
    run (handleVisualize selecting)
        [ClickRemoveFile; Fulfil 0 gen0 (Js.lit "0.4fzyo82mvyr") 1000%Z]
      = Some w' /\
    file (app w') = None /\ results (app w') = [r1] /\
    status (app w') = SUCCESS.
Proof.
  exact (pending_call_survives_file_removal (handleVisualize selecting) pdf 0
           quantum gen0 (Js.lit "0.4fzyo82mvyr") 1000%Z eq_refl eq_refl).
Defined.

(** X12.  Removing the file does not clear the selection either: after a new
    upload the submit control is rendered again for the selection made in
    the removed document, and a click submits that old text. *)
Theorem selection_survives_reupload (w : World) (f f' : File.t) (url : Js.str) :
  file (app w) = Some f ->
  isPdf f' = true ->
  selectionPosition (app w) <> None ->
  selectedText (app w) <> [] ->
  exists w',
    run w [ClickRemoveFile; FileChange (Some f') url; ClickVisualize] = Some w' /\
    calls w' = calls w ++ [selectedText (app w)] /\
    file (app w') = Some f' /\
    status (app w') = LOADING.
Proof.
  intros Hf Hpdf Hpos Htext. apply Js_truthy_nonempty in Htext.
  destruct (selectionPosition (app w)) as [p|] eqn:Hp; [|contradiction].
  cbn [run]. unfold dispatch at 1. rewrite Hf. cbn [isSome whenb].
  unfold dispatch at 1. cbn [app onApp removeFile setResults setPdfUrl setFile
                              file isSome negb whenb].
  unfold dispatch at 1. unfold handleFileChange. unfold isPdf in Hpdf.
  rewrite Hpdf. cbn. rewrite Hp. cbn. unfold handleVisualize. cbn.
  rewrite Htext. cbn. eexists. split; [reflexivity|]. now repeat split.
Qed.

Lemma selection_survives_reupload_witness :
  exists w',
    run selecting [ClickRemoveFile; FileChange (Some pdf) blobUrl; ClickVisualize]
      = Some w' /\
    calls w' = calls selecting ++ [selectedText (app selecting)] /\
    file (app w') = Some pdf /\ status (app w') = LOADING.
Proof.
  apply (selection_survives_reupload selecting pdf pdf blobUrl).
  - reflexivity.
  - reflexivity.
  - vm_compute. discriminate.
  - vm_compute. discriminate.
Defined.

(** ** Composing the history operations *)

Lemma closeCard_length_lt (s : AppState) :
  results s <> [] ->
  List.length (results (closeCard s)) < List.length (results s).
Proof.
  destruct (results s) as [|h t] eqn:E; [congruence|]. intros _.
  rewrite (closeCard_results s h t E). simpl.
  pose proof (filter_length_le (fun p => negb (Js.eqb (id p) (id h))) t) as Hle.
  unfold without. lia.
Qed.

Lemma closeCards_empties (n : nat) (s : AppState) :
  List.length (results s) <= n -> results (closeCards n s) = [].
Proof.
  revert s. induction n as [|n IH]; simpl; intros s Hle.
  - destruct (results s); [reflexivity|simpl in Hle; lia].
  - apply IH. destruct (results s) as [|h t] eqn:E.
    + unfold closeCard. rewrite E, E. simpl. lia.
    + assert (Hne : results s <> []) by congruence.
      pose proof (closeCard_length_lt s Hne) as Hlt. rewrite E in Hlt.
      simpl in *. lia.
Qed.

(** X13.  Every dismissal of the card strictly shortens a non-empty history
    (also when ids repeat), so dismissing as many times as there are entries
    always empties it. *)
Theorem closeCard_shortens (s : AppState) :
  (results s <> [] ->
   List.length (results (closeCard s)) < List.length (results s)) /\
  results (closeCards (List.length (results s)) s) = [].
Proof.
  split; [apply closeCard_length_lt|]. now apply closeCards_empties.
Qed.

Lemma closeCard_shortens_witness :
  List.length (results (closeCard (withResults [r3; r2; r1] initialState))) < 3.
Proof.
  apply (closeCard_shortens (withResults [r3; r2; r1] initialState)).
  discriminate.
Defined.

(** X14.  Deleting an entry through the interface: on a history without
    duplicate ids, promoting an id that is present and then dismissing the
    card removes exactly that entry and keeps the others in their order. *)
Theorem promote_then_close_deletes (s : AppState) (i : Js.str) :
  NoDup (ids (results s)) ->
  In i (ids (results s)) ->
  results (closeCard (promoteApp i s)) = without i (results s).
Proof.
  intros Hnd Hin.
  destruct (promote_moves_to_head i (results s) Hnd Hin)
    as (r & before & after & Hh & Hid & Hp).
  rewrite <- results_promoteApp in Hp.
  rewrite (closeCard_results _ r (before ++ after) Hp).
  rewrite Hh in Hnd |- *. rewrite (without_split i before after r Hid Hnd).
  rewrite Hid. apply without_absent.
  rewrite ids_app in Hnd. simpl in Hnd. apply NoDup_remove_2 in Hnd.
  now rewrite ids_app, <- Hid.
Qed.

Lemma promote_then_close_deletes_witness :
  results (closeCard (promoteApp (id r2) (withResults [r3; r2; r1] initialState)))
    = [r3; r1].
Proof.
  rewrite (promote_then_close_deletes (withResults [r3; r2; r1] initialState)
             (id r2)).
  - reflexivity.
  - vm_compute. repeat constructor; simpl; intuition discriminate.
  - simpl. right. left. reflexivity.
Defined.

(** X15.  On a history without duplicate ids, promotion only rearranges: the
    result is a permutation of the history, still without duplicate ids, and
    promoting the same id a second time changes nothing more. *)
Theorem promote_rearranges (s : AppState) (i : Js.str) :
  NoDup (ids (results s)) ->
  Permutation (results (promoteApp i s)) (results s) /\
  NoDup (ids (results (promoteApp i s))) /\
  promoteApp i (promoteApp i s) = promoteApp i s.
Proof.
  intros Hnd.
  destruct (in_dec (list_eq_dec N.eq_dec) i (ids (results s))) as [Hin|Hout].
  - destruct (promote_moves_to_head i (results s) Hnd Hin)
      as (r & before & after & Hh & Hid & Hp).
    rewrite <- results_promoteApp in Hp.
    assert (Hperm : Permutation (results (promoteApp i s)) (results s)).
    { rewrite Hp, Hh. apply Permutation_middle. }
    assert (Hnd' : NoDup (ids (results (promoteApp i s)))).
    { unfold ids. eapply Permutation_NoDup; [|exact Hnd].
      apply Permutation_map. now apply Permutation_sym. }
    repeat split; auto.
    apply promoteApp_no_entry. rewrite Hp. simpl.
    rewrite Hp in Hnd'. simpl in Hnd'. inversion Hnd'; subst. assumption.
  - assert (Hno : promoteApp i s = s).
    { apply promoteApp_no_entry. intros Hin. apply Hout.
      unfold ids in *. destruct (results s); simpl in *; [contradiction|now right]. }
    rewrite !Hno. now repeat split.
Qed.

Lemma promote_rearranges_witness :
  Permutation
    (results (promoteApp (id r1) (withResults [r3; r2; r1] initialState)))
    [r3; r2; r1].
Proof.
  apply (promote_rearranges (withResults [r3; r2; r1] initialState) (id r1)).
  vm_compute. repeat constructor; simpl; intuition discriminate.
Defined.

(** X16.  Insert then dismiss is a round trip: when a fulfilled call brings
    an id the history does not hold, dismissing the new card gives back the
    history as it was before the call was fulfilled. *)
Theorem fulfil_then_close_restores (w : World) (k : nat) (t : Js.str)
    (g : Generated) (rnd36 : Js.str) (now : Z) :
  nth_error (pending w) k = Some t ->
  ~ In (Js.substr 2 9 rnd36) (ids (results (app w))) ->
  exists w',
    run w [Fulfil k g rnd36 now; ClickCardClose] = Some w' /\
    results (app w') = results (app w) /\
    status (app w') = SUCCESS.
Proof.
  intros Hk Hfresh. cbn [run]. unfold dispatch at 1, settle. rewrite Hk.
  unfold dispatch, whenb. cbn.
  eexists. split; [reflexivity|]. cbn. split; [|reflexivity].
  rewrite Js_eqb_refl. cbn. now apply without_absent.
Qed.

Lemma fulfil_then_close_restores_witness :
  exists w',
    run (handleVisualize selecting)
        [Fulfil 0 gen0 (Js.lit "0.4fzyo82mvyr") 1000%Z; ClickCardClose]
      = Some w' /\
    results (app w') = results (app (handleVisualize selecting)) /\
    status (app w') = SUCCESS.
Proof.
  apply (fulfil_then_close_restores (handleVisualize selecting) 0 quantum).
  - reflexivity.
  - simpl. tauto.
Defined.

(** X17.  A click on a history entry never adds an entry: every entry of
    the new history was in the old one and the length does not grow.  It
    also closes the drawer, so no second entry can be clicked before the
    drawer is opened again. *)
Theorem history_click_closes_drawer (w w' : World) (n : nat) :
  dispatch w (ClickHistoryEntry n) = Some w' ->
  showHistory (app w') = false /\
  (forall m, dispatch w' (ClickHistoryEntry m) = None) /\
  incl (results (app w')) (results (app w)) /\
  List.length (results (app w')) <= List.length (results (app w)) /\
  status (app w') = status (app w) /\
  calls w' = calls w /\ pending w' = pending w.
Proof.
  intros H. dispatch_inv H.
  match goal with Hn : nth_error (drawerEntries _) _ = Some ?res |- _ =>
    assert (Hin : In res (results (app w)))
      by (apply drawerEntries_incl; eapply nth_error_In; exact Hn);
    pose proof (without_length_lt res _ Hin) as Hlt end.
  cbn. split; [reflexivity|]. split; [reflexivity|]. split.
  - intros r [<-|Hr]; [exact Hin|]. apply filter_In in Hr. tauto.
  - unfold without in Hlt. split; [lia|]. now repeat split.
Qed.

Lemma history_click_closes_drawer_witness :
  exists w w',
    run initialWorld
      (trSubmit ++ [Fulfil 0 gen0 (Js.lit "0.4fzyo82mvyr") 1000%Z;
                    MouseUp (Some selDuality); ClickVisualize;
                    Fulfil 0 gen0 (Js.lit "0.k1x9qz7a2bc") 2000%Z;
                    ClickToggleHistory]) = Some w /\
    dispatch w (ClickHistoryEntry 0) = Some w' /\
    showHistory (app w') = false /\
    dispatch w' (ClickHistoryEntry 0) = None.
Proof.
  eexists. eexists. split; [vm_compute; reflexivity|].
  match goal with |- ?d = Some ?x /\ _ =>
    assert (Hd : d = Some x) by reflexivity end.
  split; [exact Hd|].
  destruct (history_click_closes_drawer _ _ 0 Hd) as (Hs & Hno & _).
  split; [exact Hs|exact (Hno 0)].
Defined.

(** ** What each event can change *)

(** X18.  The generation service is called by the submit click only, at most
    once per click, with the captured text: every other event leaves the log
    of calls as it is. *)
Theorem only_submit_calls_service (w w' : World) (e : Event) :
  dispatch w e = Some w' ->
  calls w' = calls w \/
  (e = ClickVisualize /\ selectedText (app w) <> [] /\
   calls w' = calls w ++ [selectedText (app w)]).
Proof.
  intros H. destruct e; dispatch_inv H; try (left; reflexivity).
  destruct (Js.truthy (selectedText (app w))) eqn:Ht.
  - right. rewrite (handleVisualize_truthy w Ht).
    apply Js_truthy_nonempty in Ht. now repeat split.
  - left. now rewrite (handleVisualize_falsy w Ht).
Qed.

Lemma only_submit_calls_service_witness :
  calls (handleVisualize selecting) = calls selecting \/
  (ClickVisualize = ClickVisualize /\ selectedText (app selecting) <> [] /\
   calls (handleVisualize selecting)
     = calls selecting ++ [selectedText (app selecting)]).
Proof.
  apply (only_submit_calls_service selecting (handleVisualize selecting)
           ClickVisualize).
  reflexivity.
Defined.

(** X19.  The status is changed only by a submit click or by a call that
    settles; the history is changed only by a fulfilled call, by removing
    the file, by dismissing the card or by a click on a history entry.
    Selection changes, uploads, the history toggle and the error dismissal
    touch neither. *)
Theorem status_and_history_frame (w w' : World) (e : Event) :
  dispatch w e = Some w' ->
  (status (app w') <> status (app w) ->
     e = ClickVisualize \/
     (exists k g rnd36 now, e = Fulfil k g rnd36 now) \/
     (exists k, e = Reject k)) /\
  (results (app w') <> results (app w) ->
     (exists k g rnd36 now, e = Fulfil k g rnd36 now) \/
     e = ClickRemoveFile \/ e = ClickCardClose \/
     (exists n, e = ClickHistoryEntry n)).
Proof.
  intros H. destruct e; dispatch_inv H; cbn [app onApp].
  - destruct (handleFileChange_frame picked url (app w)) as (_ & _ & Hr & Hs & _).
    split; intros Hne; contradiction.
  - destruct (handleMouseUp_frame selection (app w)) as (_ & _ & Hr & Hs & _).
    split; intros Hne; contradiction.
  - split; [now left|]. rewrite handleVisualize_results. intros Hne.
    now contradiction Hne.
  - split; intros _; [right; left|left]; eauto.
  - split; [intros _; right; right; eauto|]. intros Hne. now contradiction Hne.
  - split; [intros Hne; now contradiction Hne|]. intros _. right. now left.
  - split; intros Hne; now contradiction Hne.
  - split; intros Hne; now contradiction Hne.
  - destruct (closeCard_frame (app w)) as (_ & _ & _ & _ & Hs & _).
    split; [intros Hne; contradiction|]. intros _. right. right. now left.
  - split; [intros Hne; now contradiction Hne|]. intros _. right. right. right.
    eauto.
  - split; intros Hne; now contradiction Hne.
Qed.

Lemma status_and_history_frame_witness :
  status (app (handleVisualize selecting)) <> status (app selecting) /\
  (ClickVisualize = ClickVisualize \/
   (exists k g rnd36 now, ClickVisualize = Fulfil k g rnd36 now) \/
   (exists k, ClickVisualize = Reject k)).
Proof.
  assert (Hne : status (app (handleVisualize selecting)) <> status (app selecting))
    by (vm_compute; discriminate).
  split; [exact Hne|].
  exact (proj1 (status_and_history_frame selecting (handleVisualize selecting)
                  ClickVisualize eq_refl) Hne).
Defined.

(** ** Two calls in flight *)

(** X20.  Calls settle independently.  With two calls pending, when the
    first fails and the second is fulfilled afterwards, the status ends as
    SUCCESS and the history gains the second call's result, while the
    failure message of the first call stays in the error cell. *)
Theorem failure_message_outlives_success (w : World) (t1 t2 : Js.str)
    (rest : list Js.str) (g : Generated) (rnd36 : Js.str) (now : Z) :
  pending w = t1 :: t2 :: rest ->
  exists w',
    run w [Reject 0; Fulfil 0 g rnd36 now] = Some w' /\
    status (app w') = SUCCESS /\
    error (app w') = Some failureMessage /\
    results (app w') = newResult t2 g rnd36 now :: results (app w) /\
    pending w' = rest.
Proof.
  intros Hp. cbn [run]. unfold dispatch at 1, settle. rewrite Hp. cbn.
  eexists. split; [reflexivity|]. now repeat split.
Qed.

Lemma failure_message_outlives_success_witness :
  exists w',
    run twoPending [Reject 0; Fulfil 0 gen0 (Js.lit "0.k1x9qz7a2bc") 2000%Z]
      = Some w' /\
    status (app w') = SUCCESS /\
    error (app w') = Some failureMessage /\
    results (app w') = r2 :: results (app twoPending) /\
    pending w' = [].
Proof.
  exact (failure_message_outlives_success twoPending quantum
           (Js.lit "Wave-Particle Duality") [] gen0 (Js.lit "0.k1x9qz7a2bc")
           2000%Z eq_refl).
Defined.

(** ** Promotion by a click on a drawer entry *)






(** C7 as stated fails when an id repeats: in a reachable history of two
    entries with one id, a single dismissal of the card removes both. *)
Lemma close_repeated_id_removes_both :
  exists w w',
    run initialWorld trCollision = Some w /\
    List.length (results (app w)) = 2 /\
    dispatch w ClickCardClose = Some w' /\
    results (app w') = [] /\
    results (app w') <> tl (results (app w)).
Proof.
  eexists. eexists. split; [vm_compute; reflexivity|].
  split; [reflexivity|]. split; [vm_compute; reflexivity|].
  split; [reflexivity|]. discriminate.
Qed.
